(** * The actuator-disc component of the Betz-limit example

    Source: [openmdao/test_suite/test_examples/betz_limit.py].

    The file defines one component, [ActuatorDisc], with the two entry
    points [compute] and [compute_partials], and configures an optimisation
    problem around it.  Both entry points receive dictionaries owned by the
    framework: [inputs] is read with [inputs[name]], [outputs] and the
    Jacobian [J] are written with [outputs[name] = v] and [J[of, wrt] = v].

    Embedding.
    - The three dictionaries are finite maps; together they form the
      [store] the entry points run on.  Reading a missing key raises
      [KeyError] in Python; here the run returns [None].
    - An entry point is a computation in a state-and-error monad over the
      store, written statement by statement as the source is.
    - Numbers are real numbers: Python's [float] arithmetic is read as
      exact arithmetic on [R] (rounding is not modelled).  A literal written
      with a decimal point in the source ([.5], [2.0], [1.225]) is written
      with a decimal point here; [x ** n] is [x ^ n]. *)

From Stdlib Require Import Reals Lra.
From stdpp Require Import gmap strings.

Open Scope R_scope.

(** ** The store and the monad *)

Record store : Type := Store {
  inputs  : gmap string R;
  outputs : gmap string R;
  J       : gmap (string * string) R
}.

Definition M (A : Type) : Type := store → option (A * store).

#[global] Instance M_ret : MRet M := λ A x s, Some (x, s).

#[global] Instance M_bind : MBind M := λ A B f m s,
  match m s with
  | Some (x, s') => f x s'
  | None => None
  end.

(** [inputs[k]] *)
Definition get_input (k : string) : M R := λ s,
  match inputs s !! k with
  | Some v => Some (v, s)
  | None => None
  end.

(** [outputs[k] = v] *)
Definition set_output (k : string) (v : R) : M unit := λ s,
  Some (tt, Store (inputs s) (<[k:=v]> (outputs s)) (J s)).

(** [J[of, wrt]] *)
Definition get_J (k : string * string) : M R := λ s,
  match J s !! k with
  | Some v => Some (v, s)
  | None => None
  end.

(** [J[of, wrt] = v] *)
Definition set_J (k : string * string) (v : R) : M unit := λ s,
  Some (tt, Store (inputs s) (outputs s) (<[k:=v]> (J s))).

(** ** The component *)

Module ActuatorDisc.

(** [setup]: the declared variables with their default values. *)
Definition declared_inputs : list (string * R) :=
  [("a", 0.5); ("Area", 10.0); ("rho", 1.225); ("Vu", 10.0)].

Definition declared_outputs : list (string * R) :=
  [("Vr", 0.0); ("Vd", 0.0); ("Ct", 0.0); ("thrust", 0.0); ("Cp", 0.0);
   ("power", 0.0)].

Definition compute : M unit :=
  a ← get_input "a";
  Vu ← get_input "Vu";
  rho ← get_input "rho";
  Area ← get_input "Area";
  let qA := 0.5 * rho * Area * Vu ^ 2 in
  let Vd := Vu * (1 - 2 * a) in
  set_output "Vd" Vd;;
  set_output "Vr" (0.5 * (Vu + Vd));;
  let Ct := 4 * a * (1 - a) in
  set_output "Ct" Ct;;
  set_output "thrust" (Ct * qA);;
  let Cp := Ct * (1 - a) in
  set_output "Cp" Cp;;
  set_output "power" (Cp * qA * Vu).

Definition compute_partials : M unit :=
  a ← get_input "a";
  Vu ← get_input "Vu";
  Area ← get_input "Area";
  rho ← get_input "rho";
  let a_times_area := a * Area in
  let one_minus_a := 1.0 - a in
  let a_area_rho_vu := a_times_area * rho * Vu in
  set_J ("Vr", "a") (- Vu);;
  set_J ("Vr", "Vu") one_minus_a;;
  set_J ("Vd", "a") (- 2.0 * Vu);;
  set_J ("Ct", "a") (4.0 - 8.0 * a);;
  J_Ct_a ← get_J ("Ct", "a");
  set_J ("thrust", "a") (0.5 * rho * Vu ^ 2 * Area * J_Ct_a);;
  set_J ("thrust", "Area") (2.0 * Vu ^ 2 * a * rho * one_minus_a);;
  set_J ("thrust", "rho") (2.0 * a_times_area * Vu ^ 2 * one_minus_a);;
  set_J ("thrust", "Vu") (4.0 * a_area_rho_vu * one_minus_a);;
  set_J ("Cp", "a") (4.0 * a * (2.0 * a - 2.0) + 4.0 * one_minus_a ^ 2);;
  set_J ("power", "a")
    (2.0 * Area * Vu ^ 3 * a * rho * (2.0 * a - 2.0)
     + 2.0 * Area * Vu ^ 3 * rho * one_minus_a ^ 2);;
  set_J ("power", "Area") (2.0 * Vu ^ 3 * a * rho * one_minus_a ^ 2);;
  set_J ("power", "rho") (2.0 * a_times_area * Vu ^ 3 * one_minus_a ^ 2);;
  set_J ("power", "Vu") (6.0 * Area * Vu ^ 2 * a * rho * one_minus_a ^ 2).

End ActuatorDisc.

Import ActuatorDisc.

(** The keys [compute_partials] assigns in [J], in the order of the
    assignments. *)
Definition jacobian_keys : list (string * string) :=
  [("Vr", "a"); ("Vr", "Vu"); ("Vd", "a"); ("Ct", "a");
   ("thrust", "a"); ("thrust", "Area"); ("thrust", "rho"); ("thrust", "Vu");
   ("Cp", "a");
   ("power", "a"); ("power", "Area"); ("power", "rho"); ("power", "Vu")].

(** ** The test's problem configuration *)

Module TestBetzLimit.

(** [indeps.add_output(name, value)] *)
Definition indeps : list (string * R) :=
  [("a", 0.5); ("Area", 10.0); ("rho", 1.225); ("Vu", 10.0)].

(** [prob.model.add_design_var(name, lower=..., upper=...)] *)
Record design_var : Type := DesignVar {
  dv_name : string;
  dv_lower : R;
  dv_upper : R
}.

Definition design_vars : list design_var :=
  [DesignVar "a" 0.0 1.0; DesignVar "Area" 0.0 1.0].

(** [prob.model.add_objective('a_disk.Cp', scaler=-1)]: the subsystem,
    its output and the scaler. *)
Definition objective : string * string * R := ("a_disk", "Cp", -1).

End TestBetzLimit.

(** ** Notions the statements use *)

(** The inputs dictionary holds the quadruple [(a, Area, rho, Vu)]. *)
Definition has_inputs (ins : gmap string R) (a Area rho Vu : R) : Prop :=
  ins !! "a" = Some a ∧ ins !! "Area" = Some Area ∧
  ins !! "rho" = Some rho ∧ ins !! "Vu" = Some Vu.

(** The forward function: output [o] of [compute] run on the inputs [ins]
    with fresh [outputs]. *)
Definition forward (ins : gmap string R) (o : string) : option R :=
  match compute (Store ins ∅ ∅) with
  | Some (_, s') => outputs s' !! o
  | None => None
  end.

(** [l] is the partial derivative of output [o] of the forward function with
    respect to input [i], at the inputs [ins]: the forward function, with all
    inputs but [i] held at their value in [ins], is a real function of input
    [i] whose derivative at the value of [i] in [ins] is [l]. *)
Definition partial_derivative (o i : string) (ins : gmap string R) (l : R) : Prop :=
  ∃ (f : R → R) (x0 : R),
    ins !! i = Some x0 ∧
    (∀ x : R, forward (<[i:=x]> ins) o = Some (f x)) ∧
    derivable_pt_lim f x0 l.

(** ** The formulas as the specification words them *)

Module Spec.
Definition Vd (a Vu : R) : R := Vu * (1 - 2 * a).
Definition Vr (Vu Vd : R) : R := (Vu + Vd) / 2.
Definition Ct (a : R) : R := 4 * a * (1 - a).
Definition thrust (Ct rho Area Vu : R) : R := Ct * (1 / 2) * rho * Area * Vu ^ 2.
Definition Cp (Ct a : R) : R := Ct * (1 - a).
Definition power (Cp rho Area Vu : R) : R := Cp * (1 / 2) * rho * Area * Vu ^ 3.
End Spec.

(** ** Running the entry points *)

(** Unfold an entry point on a store whose inputs are known. *)
Ltac run :=
  cbv [compute compute_partials mbind M_bind get_input set_output set_J get_J
       inputs outputs J];
  repeat match goal with
         | H : ?m !! ?k = Some _ |- context [?m !! ?k] => rewrite H
         end;
  repeat rewrite lookup_insert_eq.

(** Look a concrete key up in a chain of assignments. *)
Ltac look :=
  repeat first [ rewrite lookup_insert_eq
               | rewrite lookup_insert_ne by (clear; discriminate) ].

Lemma compute_run ins outs jac a Area rho Vu :
  has_inputs ins a Area rho Vu →
  compute (Store ins outs jac) =
  Some (tt, Store ins
    (<["power" := 4 * a * (1 - a) * (1 - a) * (0.5 * rho * Area * Vu ^ 2) * Vu]>
    (<["Cp" := 4 * a * (1 - a) * (1 - a)]>
    (<["thrust" := 4 * a * (1 - a) * (0.5 * rho * Area * Vu ^ 2)]>
    (<["Ct" := 4 * a * (1 - a)]>
    (<["Vr" := 0.5 * (Vu + Vu * (1 - 2 * a))]>
    (<["Vd" := Vu * (1 - 2 * a)]> outs)))))) jac).
Proof. intros (Ha & HA & Hr & HV). run. reflexivity. Qed.

Lemma compute_partials_run ins outs jac a Area rho Vu :
  has_inputs ins a Area rho Vu →
  compute_partials (Store ins outs jac) =
  Some (tt, Store ins outs
    (<[("power", "Vu") := 6.0 * Area * Vu ^ 2 * a * rho * (1.0 - a) ^ 2]>
    (<[("power", "rho") := 2.0 * (a * Area) * Vu ^ 3 * (1.0 - a) ^ 2]>
    (<[("power", "Area") := 2.0 * Vu ^ 3 * a * rho * (1.0 - a) ^ 2]>
    (<[("power", "a") := 2.0 * Area * Vu ^ 3 * a * rho * (2.0 * a - 2.0)
                         + 2.0 * Area * Vu ^ 3 * rho * (1.0 - a) ^ 2]>
    (<[("Cp", "a") := 4.0 * a * (2.0 * a - 2.0) + 4.0 * (1.0 - a) ^ 2]>
    (<[("thrust", "Vu") := 4.0 * (a * Area * rho * Vu) * (1.0 - a)]>
    (<[("thrust", "rho") := 2.0 * (a * Area) * Vu ^ 2 * (1.0 - a)]>
    (<[("thrust", "Area") := 2.0 * Vu ^ 2 * a * rho * (1.0 - a)]>
    (<[("thrust", "a") := 0.5 * rho * Vu ^ 2 * Area * (4.0 - 8.0 * a)]>
    (<[("Ct", "a") := 4.0 - 8.0 * a]>
    (<[("Vd", "a") := - 2.0 * Vu]>
    (<[("Vr", "Vu") := 1.0 - a]>
    (<[("Vr", "a") := - Vu]> jac)))))))))))))).
Proof. intros (Ha & HA & Hr & HV). run. reflexivity. Qed.

(** The default inputs declared by [setup] form a valid input dictionary. *)
Lemma default_inputs :
  has_inputs (list_to_map declared_inputs) 0.5 10.0 1.225 10.0.
Proof. repeat split. Qed.

(** C1: on every input quadruple the forward evaluation writes, into the six
    output slots, the values given by the actuator-disc formulas
    Vd = Vu(1-2a), Vr = (Vu+Vd)/2, Ct = 4a(1-a), thrust = Ct(1/2)rho Area Vu^2,
    Cp = Ct(1-a), power = Cp(1/2)rho Area Vu^3. *)
Theorem compute_forward ins outs jac a Area rho Vu :
  has_inputs ins a Area rho Vu →
  ∃ s' Vd Vr Ct thrust Cp power,
    compute (Store ins outs jac) = Some (tt, s') ∧
    outputs s' !! "Vd" = Some Vd ∧ outputs s' !! "Vr" = Some Vr ∧
    outputs s' !! "Ct" = Some Ct ∧ outputs s' !! "thrust" = Some thrust ∧
    outputs s' !! "Cp" = Some Cp ∧ outputs s' !! "power" = Some power ∧
    Vd = Spec.Vd a Vu ∧ Vr = Spec.Vr Vu Vd ∧ Ct = Spec.Ct a ∧
    thrust = Spec.thrust Ct rho Area Vu ∧ Cp = Spec.Cp Ct a ∧
    power = Spec.power Cp rho Area Vu.
Proof.
  intros Hin. eexists _, _, _, _, _, _, _.
  split; [exact (compute_run _ outs jac _ _ _ _ Hin)|].
  cbn [outputs]. look.
  repeat (split; [reflexivity|]).
  unfold Spec.Vd, Spec.Vr, Spec.Ct, Spec.thrust, Spec.Cp, Spec.power.
  repeat split; lra.
Qed.

Lemma compute_forward_witness :
  ∃ s' Vd Vr Ct thrust Cp power,
    compute (Store (list_to_map declared_inputs) ∅ ∅) = Some (tt, s') ∧
    outputs s' !! "Vd" = Some Vd ∧ outputs s' !! "Vr" = Some Vr ∧
    outputs s' !! "Ct" = Some Ct ∧ outputs s' !! "thrust" = Some thrust ∧
    outputs s' !! "Cp" = Some Cp ∧ outputs s' !! "power" = Some power ∧
    Vd = Spec.Vd 0.5 10.0 ∧ Vr = Spec.Vr 10.0 Vd ∧ Ct = Spec.Ct 0.5 ∧
    thrust = Spec.thrust Ct 1.225 10.0 10.0 ∧ Cp = Spec.Cp Ct 0.5 ∧
    power = Spec.power Cp 1.225 10.0 10.0.
Proof. apply (compute_forward _ ∅ ∅ _ _ _ _ default_inputs). Defined.

(** ** Derivatives of the forward function *)

Lemma forward_run ins o a Area rho Vu :
  has_inputs ins a Area rho Vu →
  forward ins o =
    (<["power" := 4 * a * (1 - a) * (1 - a) * (0.5 * rho * Area * Vu ^ 2) * Vu]>
    (<["Cp" := 4 * a * (1 - a) * (1 - a)]>
    (<["thrust" := 4 * a * (1 - a) * (0.5 * rho * Area * Vu ^ 2)]>
    (<["Ct" := 4 * a * (1 - a)]>
    (<["Vr" := 0.5 * (Vu + Vu * (1 - 2 * a))]>
    (<["Vd" := Vu * (1 - 2 * a)]> (∅ : gmap string R))))))) !! o.
Proof. intros Hin. unfold forward. rewrite (compute_run _ _ _ _ _ _ _ Hin). reflexivity. Qed.

Section vary_one_input.
Context (ins : gmap string R) (a Area rho Vu : R).
Hypothesis Hin : has_inputs ins a Area rho Vu.

Lemma vary_a x : has_inputs (<["a":=x]> ins) x Area rho Vu.
Proof. destruct Hin as (? & ? & ? & ?). unfold has_inputs. look. auto. Qed.

Lemma vary_Area x : has_inputs (<["Area":=x]> ins) a x rho Vu.
Proof. destruct Hin as (? & ? & ? & ?). unfold has_inputs. look. auto. Qed.

Lemma vary_rho x : has_inputs (<["rho":=x]> ins) a Area x Vu.
Proof. destruct Hin as (? & ? & ? & ?). unfold has_inputs. look. auto. Qed.

Lemma vary_Vu x : has_inputs (<["Vu":=x]> ins) a Area rho x.
Proof. destruct Hin as (? & ? & ? & ?). unfold has_inputs. look. auto. Qed.
End vary_one_input.

Lemma dlim_value f x l l' :
  derivable_pt_lim f x l' → l' = l → derivable_pt_lim f x l.
Proof. intros H <-. exact H. Qed.

Lemma dlim_pow_comp f x l n :
  derivable_pt_lim f x l →
  derivable_pt_lim (λ y, f y ^ n) x (INR n * f x ^ pred n * l).
Proof.
  intros H.
  exact (derivable_pt_lim_comp f (λ y, y ^ n) x l _ H
           (derivable_pt_lim_pow (f x) n)).
Qed.

(** Differentiate a polynomial expression by the sum, product and power
    rules; the derivative found instantiates the third argument. *)
Ltac differentiate :=
  lazymatch goal with
  | |- derivable_pt_lim (λ x, x) ?x0 _ => apply (derivable_pt_lim_id x0)
  | |- derivable_pt_lim (λ x, @?f x + @?g x) ?x0 _ =>
      apply (derivable_pt_lim_plus f g x0); differentiate
  | |- derivable_pt_lim (λ x, @?f x - @?g x) ?x0 _ =>
      apply (derivable_pt_lim_minus f g x0); differentiate
  | |- derivable_pt_lim (λ x, @?f x * @?g x) ?x0 _ =>
      apply (derivable_pt_lim_mult f g x0); differentiate
  | |- derivable_pt_lim (λ x, @?f x ^ ?n) ?x0 _ =>
      eapply (dlim_pow_comp f x0 _ n); differentiate
  | |- derivable_pt_lim (λ _, ?c) ?x0 _ => apply (derivable_pt_lim_const c x0)
  end.

(** Equations between real expressions with decimal literals. *)
Ltac real_eq :=
  unfold Q2R; cbn [QArith_base.Qnum QArith_base.Qden pred INR]; field.

Ltac derive := eapply dlim_value; [differentiate | real_eq].

(** Settle [partial_derivative o i ins l] for concrete [o] and [i]. *)
Ltac partial Hin :=
  let x := fresh "x" in
  eexists _, _; split; [apply Hin|]; split;
  [ intros x;
    first [ rewrite (forward_run _ _ _ _ _ _ (vary_a _ _ _ _ _ Hin x))
          | rewrite (forward_run _ _ _ _ _ _ (vary_Area _ _ _ _ _ Hin x))
          | rewrite (forward_run _ _ _ _ _ _ (vary_rho _ _ _ _ _ Hin x))
          | rewrite (forward_run _ _ _ _ _ _ (vary_Vu _ _ _ _ _ Hin x)) ];
    look; reflexivity
  | derive ].

(** ** Which entries are supplied *)

(** Split a membership in a concrete list into its cases. *)
Ltac elems H :=
  cbn [fmap list_fmap fst declared_outputs jacobian_keys] in H;
  repeat (apply elem_of_cons in H as [-> | H]);
  [.. | apply elem_of_nil in H; destruct H].

(** Lookups at keys outside a concrete list skip every assignment in it. *)
Ltac skip_all Hk :=
  repeat (rewrite lookup_insert_ne;
          [| intros <-; apply Hk;
             cbn [fmap list_fmap fst declared_outputs jacobian_keys];
             clear; set_solver]).

Lemma compute_partials_keys ins outs jac a Area rho Vu s' :
  has_inputs ins a Area rho Vu →
  compute_partials (Store ins outs jac) = Some (tt, s') →
  (∀ k, k ∈ jacobian_keys → is_Some (J s' !! k)) ∧
  (∀ k, k ∉ jacobian_keys → J s' !! k = jac !! k).
Proof.
  intros Hin Hrun.
  rewrite (compute_partials_run _ _ _ _ _ _ _ Hin) in Hrun.
  injection Hrun as <-. cbn [J]. split.
  - intros k Hk. elems Hk; look; eexists; reflexivity.
  - intros k Hk. skip_all Hk. reflexivity.
Qed.

Lemma supplied_entries ins outs jac a Area rho Vu s' o i :
  has_inputs ins a Area rho Vu →
  compute_partials (Store ins outs jac) = Some (tt, s') →
  (o, i) ∈ jacobian_keys →
  ∃ v, J s' !! (o, i) = Some v ∧ partial_derivative o i ins v.
Proof.
  intros Hin Hrun Hk.
  rewrite (compute_partials_run _ _ _ _ _ _ _ Hin) in Hrun.
  injection Hrun as <-. cbn [J]. unfold jacobian_keys in Hk.
  repeat (apply elem_of_cons in Hk as [[= -> ->] | Hk]);
    [.. | apply elem_of_nil in Hk; destruct Hk];
    (eexists; split; [look; reflexivity | partial Hin]).
Qed.

(** C2: every Jacobian entry that [compute_partials] supplies is the partial
    derivative of the corresponding output of the forward function with
    respect to the corresponding input; among them J[Vr,a] = -Vu,
    J[Ct,a] = 4-8a, J[Cp,a] and J[power,Vu].  An entry found in [J]
    afterwards is such a derivative or an entry [J] held before that no
    assignment touched. *)
Theorem compute_partials_correct ins outs jac a Area rho Vu :
  has_inputs ins a Area rho Vu →
  ∃ s', compute_partials (Store ins outs jac) = Some (tt, s') ∧
    (∀ o i, (o, i) ∈ jacobian_keys →
       ∃ v, J s' !! (o, i) = Some v ∧ partial_derivative o i ins v) ∧
    (∀ o i v, J s' !! (o, i) = Some v →
       partial_derivative o i ins v ∨
       (jac !! (o, i) = Some v ∧ (o, i) ∉ jacobian_keys)) ∧
    J s' !! ("Vr", "a") = Some (- Vu) ∧
    J s' !! ("Ct", "a") = Some (4 - 8 * a) ∧
    J s' !! ("Cp", "a") = Some (4 * (1 - a) ^ 2 - 8 * a * (1 - a)) ∧
    J s' !! ("power", "Vu") = Some (6 * rho * Area * Vu ^ 2 * a * (1 - a) ^ 2).
Proof.
  intros Hin.
  pose proof (compute_partials_run _ outs jac _ _ _ _ Hin) as Hrun.
  eexists. split; [exact Hrun|].
  pose proof (compute_partials_keys _ _ _ _ _ _ _ _ Hin Hrun) as [_ Hframe].
  pose proof (λ o i, supplied_entries _ _ _ _ _ _ _ _ o i Hin Hrun)
    as Hsupplied.
  split; [exact Hsupplied|]. split.
  - intros o i v H.
    destruct (decide ((o, i) ∈ jacobian_keys)) as [Hk | Hk].
    + left. destruct (Hsupplied o i Hk) as (v' & Hv' & Hd).
      rewrite Hv' in H. injection H as <-. exact Hd.
    + right. split; [|exact Hk]. rewrite <- (Hframe _ Hk). exact H.
  - cbn [J]. look. repeat split; f_equal; real_eq.
Qed.

Lemma compute_partials_correct_witness :
  has_inputs (list_to_map declared_inputs) 0.5 10.0 1.225 10.0 ∧
  ∃ s', compute_partials (Store (list_to_map declared_inputs) ∅ ∅) = Some (tt, s') ∧
    (∀ o i, (o, i) ∈ jacobian_keys →
       ∃ v, J s' !! (o, i) = Some v ∧
            partial_derivative o i (list_to_map declared_inputs) v) ∧
    (∀ o i v, J s' !! (o, i) = Some v →
       partial_derivative o i (list_to_map declared_inputs) v ∨
       ((∅ : gmap (string * string) R) !! (o, i) = Some v ∧
        (o, i) ∉ jacobian_keys)) ∧
    J s' !! ("Vr", "a") = Some (- (10.0)) ∧
    J s' !! ("Ct", "a") = Some (4 - 8 * 0.5) ∧
    J s' !! ("Cp", "a") = Some (4 * (1 - 0.5) ^ 2 - 8 * 0.5 * (1 - 0.5)) ∧
    J s' !! ("power", "Vu")
      = Some (6 * 1.225 * 10.0 * 10.0 ^ 2 * 0.5 * (1 - 0.5) ^ 2).
Proof.
  split; [repeat split|].
  apply (compute_partials_correct _ ∅ ∅ 0.5 10.0 1.225 10.0). repeat split.
Defined.

Lemma Vd_Vu_sensitivity ins a Area rho Vu :
  has_inputs ins a Area rho Vu →
  partial_derivative "Vd" "Vu" ins (1 - 2 * a).
Proof. intros Hin. partial Hin. Qed.

(** The declared pairs [compute_partials] does not supply: all of them
    but (Vd, Vu) have a partial derivative that is zero everywhere. *)
Lemma unsupplied_pairs ins a Area rho Vu o i :
  has_inputs ins a Area rho Vu →
  o ∈ declared_outputs.*1 → i ∈ declared_inputs.*1 →
  (o, i) ∉ jacobian_keys →
  (o, i) = ("Vd", "Vu") ∨ partial_derivative o i ins 0.
Proof.
  intros Hin Ho Hi Hk.
  cbn [fmap list_fmap fst declared_outputs declared_inputs] in Ho, Hi.
  repeat (apply elem_of_cons in Ho as [-> | Ho]);
    [.. | apply elem_of_nil in Ho; destruct Ho];
    (repeat (apply elem_of_cons in Hi as [-> | Hi]);
     [.. | apply elem_of_nil in Hi; destruct Hi]);
    first [ left; reflexivity
          | exfalso; apply Hk; unfold jacobian_keys; clear; set_solver
          | right; partial Hin ].
Qed.

(** C4, evaluated on the inputs a = 0, Area = 10, rho = 1.225, Vu = 10:
    the partial derivative of Vd with respect to Vu is 1 there, so this pair
    has a non-zero sensitivity, and [compute_partials] leaves J[Vd,Vu]
    unassigned. *)
Theorem compute_partials_omits_Vd_Vu :
  let ins : gmap string R :=
    list_to_map [("a", 0.0); ("Area", 10.0); ("rho", 1.225); ("Vu", 10.0)] in
  ∃ s', compute_partials (Store ins ∅ ∅) = Some (tt, s') ∧
    J s' !! ("Vd", "Vu") = None ∧
    partial_derivative "Vd" "Vu" ins 1 ∧ 1 ≠ 0.
Proof.
  intros ins.
  assert (Hin : has_inputs ins 0.0 10.0 1.225 10.0) by (repeat split).
  eexists. split; [exact (compute_partials_run _ _ _ _ _ _ _ Hin)|].
  cbn [J]. split; [look; apply lookup_empty|]. split; [|lra].
  replace 1 with (1 - 2 * 0.0) by lra. exact (Vd_Vu_sensitivity _ _ _ _ _ Hin).
Qed.

(** ** Totality *)

(** C5: on every input quadruple both entry points return normally;
    [compute] leaves a value in each of the six output slots and
    [compute_partials] a value in each Jacobian entry it supplies. *)
Theorem entry_points_total ins outs jac a Area rho Vu :
  has_inputs ins a Area rho Vu →
  (∃ s', compute (Store ins outs jac) = Some (tt, s') ∧
         ∀ o, o ∈ declared_outputs.*1 → is_Some (outputs s' !! o)) ∧
  (∃ s', compute_partials (Store ins outs jac) = Some (tt, s') ∧
         ∀ k, k ∈ jacobian_keys → is_Some (J s' !! k)).
Proof.
  intros Hin. split.
  - eexists. split; [exact (compute_run _ _ _ _ _ _ _ Hin)|].
    cbn [outputs]. intros o Ho. elems Ho; look; eexists; reflexivity.
  - eexists. split; [exact (compute_partials_run _ _ _ _ _ _ _ Hin)|].
    apply (compute_partials_keys _ _ _ _ _ _ _ _ Hin
             (compute_partials_run _ _ _ _ _ _ _ Hin)).
Qed.

Lemma entry_points_total_witness :
  has_inputs (list_to_map declared_inputs) 0.5 10.0 1.225 10.0 ∧
  (∃ s', compute (Store (list_to_map declared_inputs) ∅ ∅) = Some (tt, s') ∧
         ∀ o, o ∈ declared_outputs.*1 → is_Some (outputs s' !! o)) ∧
  (∃ s', compute_partials (Store (list_to_map declared_inputs) ∅ ∅) = Some (tt, s') ∧
         ∀ k, k ∈ jacobian_keys → is_Some (J s' !! k)).
Proof.
  split; [repeat split|].
  apply (entry_points_total _ ∅ ∅ 0.5 10.0 1.225 10.0). repeat split.
Defined.

(** ** Frame *)

(** C6: [compute] assigns only the six declared outputs and leaves the
    inputs and the Jacobian as they were; [compute_partials] assigns only
    the Jacobian entries it supplies and leaves the inputs and the outputs
    as they were. *)
Theorem entry_points_frame ins outs jac a Area rho Vu :
  has_inputs ins a Area rho Vu →
  (∃ s', compute (Store ins outs jac) = Some (tt, s') ∧
         inputs s' = ins ∧ J s' = jac ∧
         ∀ o, o ∉ declared_outputs.*1 → outputs s' !! o = outs !! o) ∧
  (∃ s', compute_partials (Store ins outs jac) = Some (tt, s') ∧
         inputs s' = ins ∧ outputs s' = outs ∧
         ∀ k, k ∉ jacobian_keys → J s' !! k = jac !! k).
Proof.
  intros Hin. split.
  - eexists. split; [exact (compute_run _ _ _ _ _ _ _ Hin)|].
    cbn [inputs outputs J]. repeat split.
    intros o Ho. skip_all Ho. reflexivity.
  - eexists. split; [exact (compute_partials_run _ _ _ _ _ _ _ Hin)|].
    cbn [inputs outputs]. repeat split.
    apply (compute_partials_keys _ _ _ _ _ _ _ _ Hin
             (compute_partials_run _ _ _ _ _ _ _ Hin)).
Qed.

Lemma entry_points_frame_witness :
  has_inputs (list_to_map declared_inputs) 0.5 10.0 1.225 10.0 ∧
  (∃ s', compute (Store (list_to_map declared_inputs) ∅ ∅) = Some (tt, s') ∧
         inputs s' = list_to_map declared_inputs ∧ J s' = ∅ ∧
         ∀ o, o ∉ declared_outputs.*1 → outputs s' !! o = (∅ : gmap string R) !! o) ∧
  (∃ s', compute_partials (Store (list_to_map declared_inputs) ∅ ∅) = Some (tt, s') ∧
         inputs s' = list_to_map declared_inputs ∧ outputs s' = ∅ ∧
         ∀ k, k ∉ jacobian_keys → J s' !! k = (∅ : gmap (string * string) R) !! k).
Proof.
  split; [repeat split|].
  apply (entry_points_frame _ ∅ ∅ 0.5 10.0 1.225 10.0). repeat split.
Defined.

(** ** Determinism *)

(** C7: two runs on stores holding the same input quadruple give the same
    six outputs, and the same supplied Jacobian entries, whatever the
    outputs, the Jacobian and the other keys of the two stores held before. *)
Theorem entry_points_deterministic s1 s2 a Area rho Vu :
  has_inputs (inputs s1) a Area rho Vu →
  has_inputs (inputs s2) a Area rho Vu →
  (∃ s1' s2', compute s1 = Some (tt, s1') ∧ compute s2 = Some (tt, s2') ∧
      ∀ o, o ∈ declared_outputs.*1 → outputs s1' !! o = outputs s2' !! o) ∧
  (∃ s1' s2', compute_partials s1 = Some (tt, s1') ∧
      compute_partials s2 = Some (tt, s2') ∧
      ∀ k, k ∈ jacobian_keys → J s1' !! k = J s2' !! k).
Proof.
  destruct s1 as [ins1 outs1 jac1], s2 as [ins2 outs2 jac2].
  cbn [inputs]. intros H1 H2. split.
  - eexists _, _.
    split; [exact (compute_run _ _ _ _ _ _ _ H1)|].
    split; [exact (compute_run _ _ _ _ _ _ _ H2)|].
    cbn [outputs]. intros o Ho. elems Ho; look; reflexivity.
  - eexists _, _.
    split; [exact (compute_partials_run _ _ _ _ _ _ _ H1)|].
    split; [exact (compute_partials_run _ _ _ _ _ _ _ H2)|].
    cbn [J]. intros k Hk. elems Hk; look; reflexivity.
Qed.

Lemma entry_points_deterministic_witness :
  let s1 := Store (list_to_map declared_inputs) ∅ ∅ in
  let s2 := Store (<["extra" := 1]> (list_to_map declared_inputs))
                  (list_to_map declared_outputs) {[ ("Ct", "a") := 7 ]} in
  (∃ s1' s2', compute s1 = Some (tt, s1') ∧ compute s2 = Some (tt, s2') ∧
      ∀ o, o ∈ declared_outputs.*1 → outputs s1' !! o = outputs s2' !! o) ∧
  (∃ s1' s2', compute_partials s1 = Some (tt, s1') ∧
      compute_partials s2 = Some (tt, s2') ∧
      ∀ k, k ∈ jacobian_keys → J s1' !! k = J s2' !! k).
Proof.
  intros s1 s2.
  apply (entry_points_deterministic s1 s2 0.5 10.0 1.225 10.0); repeat split.
Defined.

(** ** Relations between the outputs *)

(** C8: the outputs of the forward evaluation satisfy power = thrust * Vr. *)
Theorem power_thrust_Vr ins outs jac a Area rho Vu :
  has_inputs ins a Area rho Vu →
  ∃ s' power thrust Vr,
    compute (Store ins outs jac) = Some (tt, s') ∧
    outputs s' !! "power" = Some power ∧
    outputs s' !! "thrust" = Some thrust ∧
    outputs s' !! "Vr" = Some Vr ∧
    power = thrust * Vr.
Proof.
  intros Hin. eexists _, _, _, _.
  split; [exact (compute_run _ _ _ _ _ _ _ Hin)|].
  cbn [outputs]. look. repeat (split; [reflexivity|]). real_eq.
Qed.

Lemma power_thrust_Vr_witness :
  has_inputs (list_to_map declared_inputs) 0.5 10.0 1.225 10.0 ∧
  ∃ s' power thrust Vr,
    compute (Store (list_to_map declared_inputs) ∅ ∅) = Some (tt, s') ∧
    outputs s' !! "power" = Some power ∧
    outputs s' !! "thrust" = Some thrust ∧
    outputs s' !! "Vr" = Some Vr ∧
    power = thrust * Vr.
Proof.
  split; [repeat split|].
  apply (power_thrust_Vr _ ∅ ∅ 0.5 10.0 1.225 10.0). repeat split.
Defined.

Lemma betz_gap a :
  16 / 27 - 4 * a * (1 - a) * (1 - a) = 4 * ((a - 1 / 3) ^ 2 * (4 / 3 - a)).
Proof. field. Qed.

(** C9: the Cp output is 4a(1-a)^2; for a in [0,1] it is at most 16/27, and
    it equals 16/27 exactly when a = 1/3. *)
Theorem Cp_betz_limit ins outs jac a Area rho Vu :
  has_inputs ins a Area rho Vu →
  ∃ s' Cp,
    compute (Store ins outs jac) = Some (tt, s') ∧
    outputs s' !! "Cp" = Some Cp ∧
    Cp = 4 * a * (1 - a) ^ 2 ∧
    (0 <= a <= 1 → Cp <= 16 / 27 ∧ (Cp = 16 / 27 ↔ a = 1 / 3)).
Proof.
  intros Hin. eexists _, _.
  split; [exact (compute_run _ _ _ _ _ _ _ Hin)|].
  cbn [outputs]. look. split; [reflexivity|]. split; [ring|].
  intros [Ha0 Ha1]. pose proof (betz_gap a) as Hgap.
  assert (Hsq : 0 <= (a - 1 / 3) ^ 2) by apply pow2_ge_0.
  assert (Hpos : 0 < 4 / 3 - a) by lra.
  split; [|split].
  - assert (0 <= (a - 1 / 3) ^ 2 * (4 / 3 - a))
      by (apply Rmult_le_pos; lra).
    lra.
  - intros Heq.
    assert (Hz : (a - 1 / 3) ^ 2 * (4 / 3 - a) = 0) by lra.
    apply Rmult_integral in Hz as [Hz | Hz]; [|lra].
    destruct (Req_dec (a - 1 / 3) 0) as [Hd | Hd]; [lra|].
    apply (pow_nonzero _ 2) in Hd. contradiction.
  - intros ->. field.
Qed.

Lemma Cp_betz_limit_witness :
  has_inputs (list_to_map declared_inputs) 0.5 10.0 1.225 10.0 ∧
  ∃ s' Cp,
    compute (Store (list_to_map declared_inputs) ∅ ∅) = Some (tt, s') ∧
    outputs s' !! "Cp" = Some Cp ∧
    Cp = 4 * 0.5 * (1 - 0.5) ^ 2 ∧
    (0 <= 0.5 <= 1 → Cp <= 16 / 27 ∧ (Cp = 16 / 27 ↔ 0.5 = 1 / 3)).
Proof.
  split; [repeat split|].
  apply (Cp_betz_limit _ ∅ ∅ 0.5 10.0 1.225 10.0). repeat split.
Defined.

(** ** What Ct and Cp depend on *)

(** C10: Ct and Cp depend on the input a only: two runs whose inputs agree
    on a give the same Ct and the same Cp, whatever Area, rho and Vu are.
    The objective is the Cp output, so it does not depend on the design
    variable Area, whose bounds [0, 1] exclude its initial value 10. *)
Theorem Ct_Cp_depend_on_a_only s1 s2 a Area1 rho1 Vu1 Area2 rho2 Vu2 :
  has_inputs (inputs s1) a Area1 rho1 Vu1 →
  has_inputs (inputs s2) a Area2 rho2 Vu2 →
  (∃ s1' s2' Ct Cp,
      compute s1 = Some (tt, s1') ∧ compute s2 = Some (tt, s2') ∧
      outputs s1' !! "Ct" = Some Ct ∧ outputs s2' !! "Ct" = Some Ct ∧
      outputs s1' !! "Cp" = Some Cp ∧ outputs s2' !! "Cp" = Some Cp) ∧
  TestBetzLimit.objective.1.2 = "Cp" ∧
  (∃ dv v, dv ∈ TestBetzLimit.design_vars ∧
      TestBetzLimit.dv_name dv = "Area" ∧
      TestBetzLimit.dv_lower dv = 0 ∧ TestBetzLimit.dv_upper dv = 1 ∧
      (list_to_map TestBetzLimit.indeps : gmap string R) !! "Area" = Some v ∧
      v = 10 ∧
      ¬ (TestBetzLimit.dv_lower dv <= v <= TestBetzLimit.dv_upper dv)).
Proof.
  destruct s1 as [ins1 outs1 jac1], s2 as [ins2 outs2 jac2].
  cbn [inputs]. intros H1 H2. split; [|split; [reflexivity|]].
  - eexists _, _, _, _.
    split; [exact (compute_run _ _ _ _ _ _ _ H1)|].
    split; [exact (compute_run _ _ _ _ _ _ _ H2)|].
    cbn [outputs]. look. repeat split.
  - exists (TestBetzLimit.DesignVar "Area" 0.0 1.0), 10.0.
    cbn [TestBetzLimit.dv_name TestBetzLimit.dv_lower TestBetzLimit.dv_upper].
    split; [unfold TestBetzLimit.design_vars; set_solver|].
    repeat split; lra.
Qed.

Lemma Ct_Cp_depend_on_a_only_witness :
  let s1 := Store (list_to_map declared_inputs) ∅ ∅ in
  let s2 := Store (list_to_map [("a", 0.5); ("Area", 1.0); ("rho", 2.0); ("Vu", 3.0)])
                  ∅ ∅ in
  ∃ s1' s2' Ct Cp,
      compute s1 = Some (tt, s1') ∧ compute s2 = Some (tt, s2') ∧
      outputs s1' !! "Ct" = Some Ct ∧ outputs s2' !! "Ct" = Some Ct ∧
      outputs s1' !! "Cp" = Some Cp ∧ outputs s2' !! "Cp" = Some Cp.
Proof.
  intros s1 s2.
  apply (Ct_Cp_depend_on_a_only s1 s2 0.5 10.0 1.225 10.0 1.0 2.0 3.0);
    repeat split.
Defined.

(** * Further properties of the component *)

(** ** Missing inputs *)

Lemma inputs_cases (ins : gmap string R) :
  (∃ a Area rho Vu, has_inputs ins a Area rho Vu) ∨
  (∃ k, k ∈ declared_inputs.*1 ∧ ins !! k = None).
Proof.
  destruct (ins !! "a") as [a|] eqn:Ha;
    [|right; exists "a"; split; [cbn; set_solver | exact Ha]].
  destruct (ins !! "Area") as [Area|] eqn:HA;
    [|right; exists "Area"; split; [cbn; set_solver | exact HA]].
  destruct (ins !! "rho") as [rho|] eqn:Hr;
    [|right; exists "rho"; split; [cbn; set_solver | exact Hr]].
  destruct (ins !! "Vu") as [Vu|] eqn:HV;
    [|right; exists "Vu"; split; [cbn; set_solver | exact HV]].
  left. exists a, Area, rho, Vu. repeat split; assumption.
Qed.

Lemma compute_missing ins outs jac k :
  k ∈ declared_inputs.*1 → ins !! k = None →
  compute (Store ins outs jac) = None.
Proof.
  intros Hk Hnone.
  cbn [fmap list_fmap fst declared_inputs] in Hk.
  cbv [compute mbind M_bind get_input inputs].
  repeat (apply elem_of_cons in Hk as [-> | Hk]);
    [.. | apply elem_of_nil in Hk; destruct Hk];
    rewrite ?Hnone; try reflexivity;
    repeat (match goal with
            | |- context [ins !! ?x] => destruct (ins !! x) eqn:?
            end; try reflexivity; try discriminate).
Qed.

Lemma compute_partials_missing ins outs jac k :
  k ∈ declared_inputs.*1 → ins !! k = None →
  compute_partials (Store ins outs jac) = None.
Proof.
  intros Hk Hnone.
  cbn [fmap list_fmap fst declared_inputs] in Hk.
  cbv [compute_partials mbind M_bind get_input inputs].
  repeat (apply elem_of_cons in Hk as [-> | Hk]);
    [.. | apply elem_of_nil in Hk; destruct Hk];
    rewrite ?Hnone; try reflexivity;
    repeat (match goal with
            | |- context [ins !! ?x] => destruct (ins !! x) eqn:?
            end; try reflexivity; try discriminate).
Qed.

(** X1: [compute] raises (a missing key) exactly when one of the four
    declared inputs is absent from the inputs dictionary; what [outputs]
    and [J] hold does not matter. *)
Theorem compute_fails_iff_input_missing s :
  compute s = None ↔ ∃ k, k ∈ declared_inputs.*1 ∧ inputs s !! k = None.
Proof.
  destruct s as [ins outs jac]. cbn [inputs]. split.
  - intros Hfail.
    destruct (inputs_cases ins) as [(a & Area & rho & Vu & Hin) | Hmiss];
      [|exact Hmiss].
    rewrite (compute_run _ _ _ _ _ _ _ Hin) in Hfail. discriminate.
  - intros (k & Hk & Hnone). exact (compute_missing _ _ _ _ Hk Hnone).
Qed.

(** X2: [compute_partials] raises exactly when one of the four declared
    inputs is absent; in particular it never fails on its read of
    J[Ct,a], whatever [J] held before the call. *)
Theorem compute_partials_fails_iff_input_missing s :
  compute_partials s = None ↔
  ∃ k, k ∈ declared_inputs.*1 ∧ inputs s !! k = None.
Proof.
  destruct s as [ins outs jac]. cbn [inputs]. split.
  - intros Hfail.
    destruct (inputs_cases ins) as [(a & Area & rho & Vu & Hin) | Hmiss];
      [|exact Hmiss].
    rewrite (compute_partials_run _ _ _ _ _ _ _ Hin) in Hfail. discriminate.
  - intros (k & Hk & Hnone). exact (compute_partials_missing _ _ _ _ Hk Hnone).
Qed.

(** ** Composition of the entry points *)

(** X3: evaluating twice in a row is the same as evaluating once: the
    second run of [compute] leaves the store as the first left it (and a
    failing first run fails the sequence). *)
Theorem compute_idempotent s : (compute ;; compute) s = compute s.
Proof.
  destruct s as [ins outs jac]. cbv [mbind M_bind].
  destruct (inputs_cases ins) as [(a & Area & rho & Vu & Hin) | (k & Hk & Hnone)].
  - rewrite (compute_run _ outs _ _ _ _ _ Hin).
    rewrite (compute_run _ _ _ _ _ _ _ Hin).
    do 3 f_equal. apply map_eq. intros o.
    destruct (decide (o ∈ declared_outputs.*1)) as [Ho | Ho].
    + elems Ho; look; reflexivity.
    + skip_all Ho. reflexivity.
  - rewrite (compute_missing _ _ _ _ Hk Hnone). reflexivity.
Qed.

(** X4: [compute_partials] is idempotent in the same way. *)
Theorem compute_partials_idempotent s :
  (compute_partials ;; compute_partials) s = compute_partials s.
Proof.
  destruct s as [ins outs jac]. cbv [mbind M_bind].
  destruct (inputs_cases ins) as [(a & Area & rho & Vu & Hin) | (k & Hk & Hnone)].
  - rewrite (compute_partials_run _ _ jac _ _ _ _ Hin).
    rewrite (compute_partials_run _ _ _ _ _ _ _ Hin).
    do 3 f_equal. apply map_eq. intros p.
    destruct (decide (p ∈ jacobian_keys)) as [Hp | Hp].
    + elems Hp; look; reflexivity.
    + skip_all Hp. reflexivity.
  - rewrite (compute_partials_missing _ _ _ _ Hk Hnone). reflexivity.
Qed.

(** X5: the two entry points commute: evaluating the outputs and then the
    partials gives the same store (or the same failure) as evaluating the
    partials and then the outputs. *)
Theorem entry_points_commute s :
  (compute ;; compute_partials) s = (compute_partials ;; compute) s.
Proof.
  destruct s as [ins outs jac]. cbv [mbind M_bind].
  destruct (inputs_cases ins) as [(a & Area & rho & Vu & Hin) | (k & Hk & Hnone)].
  - rewrite (compute_run _ outs jac _ _ _ _ Hin).
    rewrite (compute_partials_run _ outs jac _ _ _ _ Hin).
    rewrite (compute_partials_run _ _ jac _ _ _ _ Hin).
    rewrite (compute_run _ outs _ _ _ _ _ Hin).
    reflexivity.
  - rewrite (compute_missing _ _ _ _ Hk Hnone).
    rewrite (compute_partials_missing _ _ _ _ Hk Hnone). reflexivity.
Qed.

(** ** Bounds on the outputs *)

(** X6: the thrust coefficient never exceeds 1, reaches 1 exactly at
    a = 1/2, and is non-negative for a in [0, 1]. *)
Theorem Ct_at_most_one ins outs jac a Area rho Vu :
  has_inputs ins a Area rho Vu →
  ∃ s' Ct,
    compute (Store ins outs jac) = Some (tt, s') ∧
    outputs s' !! "Ct" = Some Ct ∧
    Ct <= 1 ∧ (Ct = 1 ↔ a = 1 / 2) ∧ (0 <= a <= 1 → 0 <= Ct).
Proof.
  intros Hin. eexists _, _.
  split; [exact (compute_run _ _ _ _ _ _ _ Hin)|].
  cbn [outputs]. look. split; [reflexivity|].
  assert (Hsq : 1 - 4 * a * (1 - a) = (2 * a - 1) ^ 2) by ring.
  pose proof (pow2_ge_0 (2 * a - 1)) as Hge.
  split; [lra|]. split; [split|].
  - intros Heq.
    destruct (Req_dec (2 * a - 1) 0) as [Hd | Hd]; [lra|].
    apply (pow_nonzero _ 2) in Hd. lra.
  - intros ->. field.
  - intros [Ha0 Ha1].
    apply Rmult_le_pos; [|lra]. lra.
Qed.

Lemma Ct_at_most_one_witness :
  has_inputs (list_to_map declared_inputs) 0.5 10.0 1.225 10.0 ∧
  ∃ s' Ct,
    compute (Store (list_to_map declared_inputs) ∅ ∅) = Some (tt, s') ∧
    outputs s' !! "Ct" = Some Ct ∧
    Ct <= 1 ∧ (Ct = 1 ↔ 0.5 = 1 / 2) ∧ (0 <= 0.5 <= 1 → 0 <= Ct).
Proof.
  split; [repeat split|].
  apply (Ct_at_most_one _ ∅ ∅ 0.5 10.0 1.225 10.0). repeat split.
Defined.

(** X7: for a in [0, 1] and non-negative density, area and wind speed, the
    thrust lies between 0 and the dynamic pressure force (1/2) rho Area Vu^2
    and the power between 0 and 16/27 of the power of the wind,
    (1/2) rho Area Vu^3. *)
Theorem thrust_power_bounds ins outs jac a Area rho Vu :
  has_inputs ins a Area rho Vu →
  0 <= a <= 1 → 0 <= Area → 0 <= rho → 0 <= Vu →
  ∃ s' thrust power,
    compute (Store ins outs jac) = Some (tt, s') ∧
    outputs s' !! "thrust" = Some thrust ∧
    outputs s' !! "power" = Some power ∧
    0 <= thrust <= 1 / 2 * rho * Area * Vu ^ 2 ∧
    0 <= power <= 16 / 27 * (1 / 2 * rho * Area * Vu ^ 3).
Proof.
  intros Hin [Ha0 Ha1] HA Hr HV. eexists _, _, _.
  split; [exact (compute_run _ _ _ _ _ _ _ Hin)|].
  cbn [outputs]. look. do 2 (split; [reflexivity|]).
  set (q := 1 / 2 * rho * Area * Vu ^ 2).
  assert (Hq : 0 <= q).
  { unfold q. repeat apply Rmult_le_pos; first [lra | apply pow2_ge_0]. }
  assert (HqV : 0 <= q * Vu) by (apply Rmult_le_pos; assumption).
  assert (HCt0 : 0 <= 4 * a * (1 - a)) by (apply Rmult_le_pos; lra).
  assert (HCt1 : 4 * a * (1 - a) <= 1).
  { pose proof (pow2_ge_0 (2 * a - 1)) as Hge.
    replace ((2 * a - 1) ^ 2) with (1 - 4 * a * (1 - a)) in Hge by ring. lra. }
  assert (HCp0 : 0 <= 4 * a * (1 - a) * (1 - a)) by (apply Rmult_le_pos; lra).
  assert (HCp1 : 4 * a * (1 - a) * (1 - a) <= 16 / 27).
  { pose proof (betz_gap a) as Hgap.
    assert (0 <= (a - 1 / 3) ^ 2 * (4 / 3 - a))
      by (apply Rmult_le_pos; [apply pow2_ge_0 | lra]).
    lra. }
  replace (4 * a * (1 - a) * (0.5 * rho * Area * Vu ^ 2))
    with (4 * a * (1 - a) * q) by (unfold q; real_eq).
  replace (4 * a * (1 - a) * (1 - a) * (0.5 * rho * Area * Vu ^ 2) * Vu)
    with (4 * a * (1 - a) * (1 - a) * (q * Vu)) by (unfold q; real_eq).
  replace (1 / 2 * rho * Area * Vu ^ 3) with (q * Vu) by (unfold q; ring).
  repeat split.
  - apply Rmult_le_pos; assumption.
  - rewrite <- (Rmult_1_l q) at 2. apply Rmult_le_compat_r; assumption.
  - apply Rmult_le_pos; assumption.
  - apply Rmult_le_compat_r; assumption.
Qed.

Lemma thrust_power_bounds_witness :
  has_inputs (list_to_map declared_inputs) 0.5 10.0 1.225 10.0 ∧
  ∃ s' thrust power,
    compute (Store (list_to_map declared_inputs) ∅ ∅) = Some (tt, s') ∧
    outputs s' !! "thrust" = Some thrust ∧
    outputs s' !! "power" = Some power ∧
    0 <= thrust <= 1 / 2 * 1.225 * 10.0 * 10.0 ^ 2 ∧
    0 <= power <= 16 / 27 * (1 / 2 * 1.225 * 10.0 * 10.0 ^ 3).
Proof.
  split; [repeat split|].
  apply (thrust_power_bounds _ ∅ ∅ 0.5 10.0 1.225 10.0);
    [repeat split | lra ..].
Defined.

(** X8: for a non-negative wind speed and a in [0, 1/2] the velocities are
    ordered 0 <= Vd <= Vr <= Vu; for a positive wind speed the slipstream
    velocity Vd is negative exactly when a > 1/2. *)
Theorem velocities_ordered ins outs jac a Area rho Vu :
  has_inputs ins a Area rho Vu →
  ∃ s' Vd Vr,
    compute (Store ins outs jac) = Some (tt, s') ∧
    outputs s' !! "Vd" = Some Vd ∧ outputs s' !! "Vr" = Some Vr ∧
    (0 <= Vu → 0 <= a <= 1 / 2 → 0 <= Vd ∧ Vd <= Vr ∧ Vr <= Vu) ∧
    (0 < Vu → (Vd < 0 ↔ 1 / 2 < a)).
Proof.
  intros Hin. eexists _, _, _.
  split; [exact (compute_run _ _ _ _ _ _ _ Hin)|].
  cbn [outputs]. look. do 2 (split; [reflexivity|]). split.
  - intros HV [Ha0 Ha1].
    assert (H1 : 0 <= Vu * (1 - 2 * a)) by (apply Rmult_le_pos; lra).
    assert (H2 : 0 <= Vu * a) by (apply Rmult_le_pos; lra).
    repeat split; lra.
  - intros HV. split.
    + intros Hneg. destruct (Rle_or_lt a (1 / 2)) as [Hle | Hlt]; [|exact Hlt].
      assert (0 <= Vu * (1 - 2 * a)) by (apply Rmult_le_pos; lra). lra.
    + intros Ha.
      assert (0 < Vu * (2 * a - 1)) by (apply Rmult_lt_0_compat; lra). lra.
Qed.

Lemma velocities_ordered_witness :
  has_inputs (list_to_map declared_inputs) 0.5 10.0 1.225 10.0 ∧
  ∃ s' Vd Vr,
    compute (Store (list_to_map declared_inputs) ∅ ∅) = Some (tt, s') ∧
    outputs s' !! "Vd" = Some Vd ∧ outputs s' !! "Vr" = Some Vr ∧
    (0 <= 10.0 → 0 <= 0.5 <= 1 / 2 → 0 <= Vd ∧ Vd <= Vr ∧ Vr <= 10.0) ∧
    (0 < 10.0 → (Vd < 0 ↔ 1 / 2 < 0.5)).
Proof.
  split; [repeat split|].
  apply (velocities_ordered _ ∅ ∅ 0.5 10.0 1.225 10.0). repeat split.
Defined.

(** ** The gradient of the objective *)

(** X9: the entry J[Cp,a], the slope of the objective in the design
    variable a, vanishes exactly at a = 1/3 and a = 1; it is positive for
    a < 1/3 and negative for 1/3 < a < 1, so on [0, 1] the only stationary
    point that is a maximum is a = 1/3. *)
Theorem Cp_slope_sign ins outs jac a Area rho Vu :
  has_inputs ins a Area rho Vu →
  ∃ s' g,
    compute_partials (Store ins outs jac) = Some (tt, s') ∧
    J s' !! ("Cp", "a") = Some g ∧
    (g = 0 ↔ a = 1 / 3 ∨ a = 1) ∧
    (a < 1 / 3 → 0 < g) ∧ (1 / 3 < a < 1 → g < 0).
Proof.
  intros Hin. eexists _, _.
  split; [exact (compute_partials_run _ _ _ _ _ _ _ Hin)|].
  cbn [J]. look. split; [reflexivity|].
  assert (Hg : 4.0 * a * (2.0 * a - 2.0) + 4.0 * (1.0 - a) ^ 2
               = 4 * ((1 - a) * (1 - 3 * a))) by real_eq.
  rewrite Hg. split; [split|split].
  - intros Hz.
    assert (Hp : (1 - a) * (1 - 3 * a) = 0) by lra.
    apply Rmult_integral in Hp as [Hp | Hp]; [right | left]; lra.
  - intros [-> | ->]; field.
  - intros Ha.
    assert (0 < (1 - a) * (1 - 3 * a)) by (apply Rmult_lt_0_compat; lra). lra.
  - intros [Ha1 Ha2].
    assert (0 < (1 - a) * (3 * a - 1)) by (apply Rmult_lt_0_compat; lra). lra.
Qed.

Lemma Cp_slope_sign_witness :
  has_inputs (list_to_map declared_inputs) 0.5 10.0 1.225 10.0 ∧
  ∃ s' g,
    compute_partials (Store (list_to_map declared_inputs) ∅ ∅) = Some (tt, s') ∧
    J s' !! ("Cp", "a") = Some g ∧
    (g = 0 ↔ 0.5 = 1 / 3 ∨ 0.5 = 1) ∧
    (0.5 < 1 / 3 → 0 < g) ∧ (1 / 3 < 0.5 < 1 → g < 0).
Proof.
  split; [repeat split|].
  apply (Cp_slope_sign _ ∅ ∅ 0.5 10.0 1.225 10.0). repeat split.
Defined.

(** X10: with respect to every design variable of the test, the gradient of
    the objective output is exact: either [compute_partials], run on an empty
    Jacobian, supplies the true partial derivative, or it supplies no entry
    and the true partial derivative is zero.  The entry missing for
    (Vd, Vu) does not enter the objective. *)
Theorem objective_gradient_exact ins outs a Area rho Vu :
  has_inputs ins a Area rho Vu →
  ∃ s', compute_partials (Store ins outs ∅) = Some (tt, s') ∧
    ∀ dv, dv ∈ TestBetzLimit.design_vars →
      ∃ l, partial_derivative (TestBetzLimit.objective.1.2)
                              (TestBetzLimit.dv_name dv) ins l ∧
           (J s' !! (TestBetzLimit.objective.1.2, TestBetzLimit.dv_name dv)
              = Some l ∨
            (J s' !! (TestBetzLimit.objective.1.2, TestBetzLimit.dv_name dv)
               = None ∧ l = 0)).
Proof.
  intros Hin.
  pose proof (compute_partials_run _ outs ∅ _ _ _ _ Hin) as Hrun.
  eexists. split; [exact Hrun|].
  intros dv Hdv. unfold TestBetzLimit.design_vars in Hdv.
  cbn [TestBetzLimit.objective fst snd].
  repeat (apply elem_of_cons in Hdv as [-> | Hdv]);
    [.. | apply elem_of_nil in Hdv; destruct Hdv];
    cbn [TestBetzLimit.dv_name].
  - destruct (supplied_entries _ _ _ _ _ _ _ _ "Cp" "a" Hin Hrun)
      as (v & Hv & Hd); [unfold jacobian_keys; set_solver|].
    exists v. split; [exact Hd | left; exact Hv].
  - exists 0. split.
    + destruct (unsupplied_pairs _ _ _ _ _ "Cp" "Area" Hin)
        as [Heq | Hd]; [cbn; set_solver | cbn; set_solver | | | exact Hd].
      * intros Hmem. unfold jacobian_keys in Hmem.
        repeat (apply elem_of_cons in Hmem as [Hmem | Hmem];
                [discriminate Hmem|]).
        apply elem_of_nil in Hmem. exact Hmem.
      * discriminate Heq.
    + right. split; [|reflexivity]. cbn [J]. look. apply lookup_empty.
Qed.

Lemma objective_gradient_exact_witness :
  has_inputs (list_to_map declared_inputs) 0.5 10.0 1.225 10.0 ∧
  ∃ s', compute_partials (Store (list_to_map declared_inputs) ∅ ∅)
          = Some (tt, s') ∧
    ∀ dv, dv ∈ TestBetzLimit.design_vars →
      ∃ l, partial_derivative (TestBetzLimit.objective.1.2)
                              (TestBetzLimit.dv_name dv)
                              (list_to_map declared_inputs) l ∧
           (J s' !! (TestBetzLimit.objective.1.2, TestBetzLimit.dv_name dv)
              = Some l ∨
            (J s' !! (TestBetzLimit.objective.1.2, TestBetzLimit.dv_name dv)
               = None ∧ l = 0)).
Proof.
  split; [repeat split|].
  apply (objective_gradient_exact _ ∅ 0.5 10.0 1.225 10.0). repeat split.
Defined.

(** ** How the outputs scale with the inputs *)

(** X11: when the wind speed is multiplied by c and the other inputs are
    kept, Vd and Vr are multiplied by c, the thrust by c^2 and the power by
    c^3, while Ct and Cp do not change. *)
Theorem wind_speed_scaling s1 s2 a Area rho Vu c :
  has_inputs (inputs s1) a Area rho Vu →
  has_inputs (inputs s2) a Area rho (c * Vu) →
  ∃ s1' s2' Vd Vr Ct thrust Cp power,
    compute s1 = Some (tt, s1') ∧ compute s2 = Some (tt, s2') ∧
    outputs s1' !! "Vd" = Some Vd ∧ outputs s2' !! "Vd" = Some (c * Vd) ∧
    outputs s1' !! "Vr" = Some Vr ∧ outputs s2' !! "Vr" = Some (c * Vr) ∧
    outputs s1' !! "Ct" = Some Ct ∧ outputs s2' !! "Ct" = Some Ct ∧
    outputs s1' !! "thrust" = Some thrust ∧
    outputs s2' !! "thrust" = Some (c ^ 2 * thrust) ∧
    outputs s1' !! "Cp" = Some Cp ∧ outputs s2' !! "Cp" = Some Cp ∧
    outputs s1' !! "power" = Some power ∧
    outputs s2' !! "power" = Some (c ^ 3 * power).
Proof.
  destruct s1 as [ins1 outs1 jac1], s2 as [ins2 outs2 jac2].
  cbn [inputs]. intros H1 H2. eexists _, _, _, _, _, _, _, _.
  split; [exact (compute_run _ _ _ _ _ _ _ H1)|].
  split; [exact (compute_run _ _ _ _ _ _ _ H2)|].
  cbn [outputs]. look.
  repeat split; f_equal; real_eq.
Qed.

Lemma wind_speed_scaling_witness :
  let s1 := Store (list_to_map declared_inputs) ∅ ∅ in
  let s2 := Store (list_to_map
                     [("a", 0.5); ("Area", 10.0); ("rho", 1.225);
                      ("Vu", 2 * 10.0)]) ∅ ∅ in
  ∃ s1' s2' Vd Vr Ct thrust Cp power,
    compute s1 = Some (tt, s1') ∧ compute s2 = Some (tt, s2') ∧
    outputs s1' !! "Vd" = Some Vd ∧ outputs s2' !! "Vd" = Some (2 * Vd) ∧
    outputs s1' !! "Vr" = Some Vr ∧ outputs s2' !! "Vr" = Some (2 * Vr) ∧
    outputs s1' !! "Ct" = Some Ct ∧ outputs s2' !! "Ct" = Some Ct ∧
    outputs s1' !! "thrust" = Some thrust ∧
    outputs s2' !! "thrust" = Some (2 ^ 2 * thrust) ∧
    outputs s1' !! "Cp" = Some Cp ∧ outputs s2' !! "Cp" = Some Cp ∧
    outputs s1' !! "power" = Some power ∧
    outputs s2' !! "power" = Some (2 ^ 3 * power).
Proof.
  intros s1 s2.
  apply (wind_speed_scaling s1 s2 0.5 10.0 1.225 10.0 2); repeat split.
Defined.

(** X12: the outputs depend on the density and the area only through their
    product: two runs that agree on a and Vu and on rho * Area give the same
    six outputs. *)
Theorem density_area_product s1 s2 a Area1 rho1 Area2 rho2 Vu :
  has_inputs (inputs s1) a Area1 rho1 Vu →
  has_inputs (inputs s2) a Area2 rho2 Vu →
  rho1 * Area1 = rho2 * Area2 →
  ∃ s1' s2',
    compute s1 = Some (tt, s1') ∧ compute s2 = Some (tt, s2') ∧
    ∀ o, o ∈ declared_outputs.*1 → outputs s1' !! o = outputs s2' !! o.
Proof.
  destruct s1 as [ins1 outs1 jac1], s2 as [ins2 outs2 jac2].
  cbn [inputs]. intros H1 H2 Hprod. eexists _, _.
  split; [exact (compute_run _ _ _ _ _ _ _ H1)|].
  split; [exact (compute_run _ _ _ _ _ _ _ H2)|].
  cbn [outputs]. intros o Ho.
  assert (Hq : 0.5 * rho1 * Area1 * Vu ^ 2 = 0.5 * rho2 * Area2 * Vu ^ 2).
  { replace (0.5 * rho1 * Area1 * Vu ^ 2)
      with (0.5 * (rho1 * Area1) * Vu ^ 2) by real_eq.
    rewrite Hprod. real_eq. }
  elems Ho; look; rewrite ?Hq; reflexivity.
Qed.

Lemma density_area_product_witness :
  let s1 := Store (list_to_map declared_inputs) ∅ ∅ in
  let s2 := Store (list_to_map
                     [("a", 0.5); ("Area", 1.225); ("rho", 10.0);
                      ("Vu", 10.0)]) ∅ ∅ in
  ∃ s1' s2',
    compute s1 = Some (tt, s1') ∧ compute s2 = Some (tt, s2') ∧
    ∀ o, o ∈ declared_outputs.*1 → outputs s1' !! o = outputs s2' !! o.
Proof.
  intros s1 s2.
  apply (density_area_product s1 s2 0.5 10.0 1.225 1.225 10.0 10.0);
    [repeat split | repeat split | lra].
Defined.

(** X13: the Jacobian entries and the outputs fit together as the degrees of
    homogeneity require: thrust and power are of degree 1 in Area and in rho,
    Vr is of degree 1, thrust of degree 2 and power of degree 3 in Vu. *)
Theorem jacobian_matches_outputs s0 a Area rho Vu :
  has_inputs (inputs s0) a Area rho Vu →
  ∃ s s' Vr thrust power,
    compute s0 = Some (tt, s) ∧ compute_partials s = Some (tt, s') ∧
    outputs s' !! "Vr" = Some Vr ∧
    outputs s' !! "thrust" = Some thrust ∧
    outputs s' !! "power" = Some power ∧
    ∃ Vr_Vu t_Area t_rho t_Vu p_Area p_rho p_Vu,
      J s' !! ("Vr", "Vu") = Some Vr_Vu ∧
      J s' !! ("thrust", "Area") = Some t_Area ∧
      J s' !! ("thrust", "rho") = Some t_rho ∧
      J s' !! ("thrust", "Vu") = Some t_Vu ∧
      J s' !! ("power", "Area") = Some p_Area ∧
      J s' !! ("power", "rho") = Some p_rho ∧
      J s' !! ("power", "Vu") = Some p_Vu ∧
      Vr_Vu * Vu = Vr ∧
      t_Area * Area = thrust ∧ t_rho * rho = thrust ∧ t_Vu * Vu = 2 * thrust ∧
      p_Area * Area = power ∧ p_rho * rho = power ∧ p_Vu * Vu = 3 * power.
Proof.
  destruct s0 as [ins outs jac]. cbn [inputs]. intros Hin.
  eexists _, _, _, _, _.
  split; [exact (compute_run _ _ _ _ _ _ _ Hin)|].
  split; [exact (compute_partials_run _ _ _ _ _ _ _ Hin)|].
  cbn [outputs J]. look. do 3 (split; [reflexivity|]).
  eexists _, _, _, _, _, _, _.
  do 7 (split; [reflexivity|]).
  repeat split; real_eq.
Qed.

Lemma jacobian_matches_outputs_witness :
  let s0 := Store (list_to_map declared_inputs) ∅ ∅ in
  ∃ s s' Vr thrust power,
    compute s0 = Some (tt, s) ∧ compute_partials s = Some (tt, s') ∧
    outputs s' !! "Vr" = Some Vr ∧
    outputs s' !! "thrust" = Some thrust ∧
    outputs s' !! "power" = Some power ∧
    ∃ Vr_Vu t_Area t_rho t_Vu p_Area p_rho p_Vu,
      J s' !! ("Vr", "Vu") = Some Vr_Vu ∧
      J s' !! ("thrust", "Area") = Some t_Area ∧
      J s' !! ("thrust", "rho") = Some t_rho ∧
      J s' !! ("thrust", "Vu") = Some t_Vu ∧
      J s' !! ("power", "Area") = Some p_Area ∧
      J s' !! ("power", "rho") = Some p_rho ∧
      J s' !! ("power", "Vu") = Some p_Vu ∧
      Vr_Vu * 10.0 = Vr ∧
      t_Area * 10.0 = thrust ∧ t_rho * 1.225 = thrust ∧
      t_Vu * 10.0 = 2 * thrust ∧
      p_Area * 10.0 = power ∧ p_rho * 1.225 = power ∧
      p_Vu * 10.0 = 3 * power.
Proof.
  intros s0.
  apply (jacobian_matches_outputs s0 0.5 10.0 1.225 10.0). repeat split.
Defined.

(** ** The Betz optimum *)

(** X14: at a = 1/3 the slipstream velocity is a third and the rotor
    velocity two thirds of the wind speed, the thrust coefficient is 8/9,
    the power coefficient 16/27, and the slope J[Cp,a] is zero. *)
Theorem betz_optimum_state s0 Area rho Vu :
  has_inputs (inputs s0) (1 / 3) Area rho Vu →
  ∃ s s',
    compute s0 = Some (tt, s) ∧ compute_partials s = Some (tt, s') ∧
    outputs s' !! "Vd" = Some (Vu / 3) ∧
    outputs s' !! "Vr" = Some (2 * Vu / 3) ∧
    outputs s' !! "Ct" = Some (8 / 9) ∧
    outputs s' !! "Cp" = Some (16 / 27) ∧
    J s' !! ("Cp", "a") = Some 0.
Proof.
  destruct s0 as [ins outs jac]. cbn [inputs]. intros Hin.
  eexists _, _.
  split; [exact (compute_run _ _ _ _ _ _ _ Hin)|].
  split; [exact (compute_partials_run _ _ _ _ _ _ _ Hin)|].
  cbn [outputs J]. look.
  repeat split; f_equal; real_eq.
Qed.

Lemma betz_optimum_state_witness :
  let s0 := Store (list_to_map
                     [("a", 1 / 3); ("Area", 10.0); ("rho", 1.225);
                      ("Vu", 10.0)]) ∅ ∅ in
  ∃ s s',
    compute s0 = Some (tt, s) ∧ compute_partials s = Some (tt, s') ∧
    outputs s' !! "Vd" = Some (10.0 / 3) ∧
    outputs s' !! "Vr" = Some (2 * 10.0 / 3) ∧
    outputs s' !! "Ct" = Some (8 / 9) ∧
    outputs s' !! "Cp" = Some (16 / 27) ∧
    J s' !! ("Cp", "a") = Some 0.
Proof.
  intros s0.
  apply (betz_optimum_state s0 10.0 1.225 10.0). repeat split.
Defined.
